(** * SKSkyforge: the JS bridge (src/index.js) and the alignment core it fronts

    The repository's executable source is one CommonJS module,
    [src/index.js], which exports two constants and two functions; both
    functions act only through Node's [child_process.execSync].  The first
    part of this development embeds that module over an explicit model of the
    operating system.  The second part models the deterministic alignment core
    that the specification describes and that the package installed by
    [pip install skskyforge] is expected to provide. *)

From Stdlib Require Import ZArith QArith Reals Lra Lia.
From Stdlib Require Import List String Ascii Bool.
From Equations Require Import Equations.
Import ListNotations.

Local Open Scope string_scope.
Local Open Scope Z_scope.

(* ===================================================================== *)
(** * Part I.  The bridge module *)
(* ===================================================================== *)

(** ** Completions and the effect monad

    A JavaScript call either returns a value or throws.  The functions of
    [index.js] have one kind of effect: they start a child process and wait
    for it.  A computation is therefore a function from the state of the
    machine to a new state and a completion. *)

Inductive Completion (E A : Type) : Type :=
| Normal (a : A)
| Throw (e : E).

Arguments Normal {E A} a.
Arguments Throw {E A} e.

Module Eff.

Definition M (S E A : Type) : Type := S -> S * Completion E A.

Definition ret {S E A} (a : A) : M S E A := fun s => (s, Normal a).

Definition throw {S E A} (e : E) : M S E A := fun s => (s, Throw e).

Definition bind {S E A B} (m : M S E A) (k : A -> M S E B) : M S E B :=
  fun s =>
    match m s with
    | (s', Normal a) => k a s'
    | (s', Throw e) => (s', Throw e)
    end.

(** [try { m } catch { h }]: the handler runs in the state the body left. *)
Definition try_catch {S E A} (m : M S E A) (h : E -> M S E A) : M S E A :=
  fun s =>
    match m s with
    | (s', Normal a) => (s', Normal a)
    | (s', Throw e) => h e s'
    end.

End Eff.

Declare Scope eff_scope.
Delimit Scope eff_scope with eff.
Notation "x <- m ;; k" := (Eff.bind m (fun x => k))
  (at level 61, m at next level, right associativity) : eff_scope.

(** ** Node's [child_process], as far as the module uses it *)

Definition Buffer : Type := list Byte.byte.

(** What the operating system reports once the child is gone: [error] is
    set when the child could not be started, was timed out or overran the
    output limit; [status] is the exit code ([None] when a signal ended
    the child); [stdout] and [stderr] are the bytes the child wrote. *)
Record SpawnResult : Type := mkSpawnResult {
  error  : option string;
  status : option Z;
  signal : option string;
  stdout : Buffer;
  stderr : Buffer
}.

(** The options object: the two keys [index.js] passes, each with the one
    value it passes, [stdio: "pipe"] and [encoding: "utf-8"]. *)
Inductive StdioOption : Type := StdioPipe.

Inductive EncodingOption : Type := EncodingUtf8.

Definition encoding_name (e : EncodingOption) : string :=
  match e with
  | EncodingUtf8 => "utf-8"
  end.

Record ExecOptions : Type := mkExecOptions {
  stdio    : option StdioOption;
  encoding : option EncodingOption
}.

(** A captured stream as the caller sees it: a [Buffer], or a string when
    an encoding was asked for. *)
Inductive ExecOutput : Type :=
| OutBuffer (b : Buffer)
| OutString (s : string).

(** What [spawnSync] returns: the report of the operating system, with the
    two streams decoded when an encoding was asked for. *)
Record SyncReturn : Type := mkSyncReturn {
  ret_error  : option string;
  ret_status : option Z;
  ret_signal : option string;
  ret_stdout : ExecOutput;
  ret_stderr : ExecOutput
}.

(** What [execSync] throws: the [TypeError] with code
    [ERR_INVALID_ARG_VALUE] of its argument validation, naming the argument
    and the value received; or the error of a child that failed, a message
    with the fields of the [spawnSync] result copied onto it. *)
Inductive JsError : Type :=
| InvalidArgValue (argument value : string)
| ExecFailed (message : string) (ret : SyncReturn).

(** What the process does that the outside can see: it starts a shell on a
    command, and it writes to its own stderr. *)
Inductive Event : Type :=
| Spawned (command : string)
| StderrWrite (data : ExecOutput).

Definition nl : string := String "010"%char EmptyString.
Definition dq : string := String "034"%char EmptyString.

Definition succeeded (r : SpawnResult) : bool :=
  match error r, status r with
  | None, Some 0 => true
  | _, _ => false
  end.

Definition is_empty (b : Buffer) : bool :=
  match b with [] => true | _ :: _ => false end.

(** [s.includes('\u0000')]: the test of [validateArgumentNullCheck]. *)
Fixpoint has_nul (s : string) : bool :=
  match s with
  | EmptyString => false
  | String c s' => Ascii.eqb c "000"%char || has_nul s'
  end.

(** Truthiness of a captured stream: a [Buffer] is an object, hence
    truthy; a string is truthy when it is not empty. *)
Definition truthy (o : ExecOutput) : bool :=
  match o with
  | OutBuffer _ => true
  | OutString s => negb (s =? EmptyString)%string
  end.

(** [o.length > 0]. *)
Definition nonempty (o : ExecOutput) : bool :=
  match o with
  | OutBuffer b => negb (is_empty b)
  | OutString s => negb (s =? EmptyString)%string
  end.

(** ** Values and their conversion to strings

    [run] is called with whatever the caller passes; the template literal
    converts it with the language's ToString.  The values kept here are
    the ones whose conversion needs no number formatting: [undefined],
    [null], booleans, strings, and arrays of such values. *)

#[warnings="-register-all"]
Inductive JsValue : Type :=
| JsUndefined
| JsNull
| JsBool (b : bool)
| JsString (s : string)
| JsArray (elements : list JsValue).

(** ToString: an array is its elements joined by commas, where an
    [undefined] or [null] element contributes the empty string. *)
Fixpoint ToString (v : JsValue) : string :=
  match v with
  | JsUndefined => "undefined"
  | JsNull => "null"
  | JsBool true => "true"
  | JsBool false => "false"
  | JsString s => s
  | JsArray elements =>
      String.concat ","
        (map (fun x =>
                match x with
                | JsUndefined | JsNull => EmptyString
                | _ => ToString x
                end) elements)
  end.

(** What a log shows of writes to the process's own stderr. *)
Fixpoint stderr_writes (l : list Event) : list ExecOutput :=
  match l with
  | [] => []
  | Spawned _ :: l' => stderr_writes l'
  | StderrWrite d :: l' => d :: stderr_writes l'
  end.

Section Bridge.

(** The machine outside the program: running a shell command to completion
    changes the world and yields a spawn result.  [decode enc b] is
    [b.toString(enc)]. *)
Variable World : Type.
Variable shell : World -> string -> World * SpawnResult.
Variable decode : string -> Buffer -> string.

Record State : Type := mkState {
  world : World;
  log   : list Event
}.

Definition JS (A : Type) : Type := Eff.M State JsError A.

(** A captured stream, decoded when [options.encoding] is set. *)
Definition captured (enc : option EncodingOption) (b : Buffer) : ExecOutput :=
  match enc with
  | Some e => OutString (decode (encoding_name e) b)
  | None => OutBuffer b
  end.

(** The result object [spawnSync] hands to [execSync]. *)
Definition returned (enc : option EncodingOption) (r : SpawnResult)
  : SyncReturn :=
  {| ret_error := error r;
     ret_status := status r;
     ret_signal := signal r;
     ret_stdout := captured enc (stdout r);
     ret_stderr := captured enc (stderr r) |}.

(** [o.toString()]: a string is itself, a [Buffer] is decoded as UTF-8. *)
Definition text_of (o : ExecOutput) : string :=
  match o with
  | OutBuffer b => decode "utf8" b
  | OutString s => s
  end.

(** [checkExecSyncError(ret, args, cmd)] of Node's lib/child_process.js. *)
Definition checkExecSyncError (ret : SyncReturn) (cmd : string)
  : option JsError :=
  match ret_error ret with
  | Some msg => Some (ExecFailed msg ret)
  | None =>
      match ret_status ret with
      | Some 0 => None
      | _ =>
          let msg := "Command failed: " ++ cmd in
          let msg :=
            if nonempty (ret_stderr ret)
            then msg ++ nl ++ text_of (ret_stderr ret)
            else msg in
          Some (ExecFailed msg ret)
      end
  end.

(** [execSync(command, options)]: reject a command that holds a null
    character before anything is started; otherwise spawn the shell on
    [command], wait, decode the captured streams when an encoding is set,
    write the child's stderr to the process's own stderr unless
    [options.stdio] was given, throw when the child failed, return its
    stdout otherwise. *)
Definition execSync (command : string) (options : ExecOptions)
  : JS ExecOutput :=
  fun st =>
    if has_nul command
    then (st, Throw (InvalidArgValue "command" command))
    else
      let (w', r) := shell (world st) command in
      let ret := returned (encoding options) r in
      let inheritStderr :=
        match stdio options with None => true | Some _ => false end in
      let evs :=
        if inheritStderr && truthy (ret_stderr ret)
        then [Spawned command; StderrWrite (ret_stderr ret)]
        else [Spawned command] in
      let st' := mkState w' (log st ++ evs) in
      match checkExecSyncError ret command with
      | Some err => (st', Throw err)
      | None => (st', Normal (ret_stdout ret))
      end.

(** ** src/index.js *)

Definition VERSION : string := "1.0.0".
Definition PYTHON_PACKAGE : string := "skskyforge".

(** The template literal [`${py} -c "import skskyforge"`]. *)
Definition import_command (py : string) : string :=
  py ++ " -c " ++ dq ++ "import skskyforge" ++ dq.

(** One turn of the [for] loop: [Some v] when the body executed
    [return v], [None] when control falls through to the next turn. *)
Definition checkInstalled_body (py : string) : JS (option bool) :=
  Eff.try_catch
    (_ <- execSync (import_command py) (mkExecOptions (Some StdioPipe) None) ;;
     Eff.ret (Some true))%eff
    (fun _ => Eff.ret None).

Fixpoint checkInstalled_for (pys : list string) : JS bool :=
  match pys with
  | [] => Eff.ret false
  | py :: rest =>
      (r <- checkInstalled_body py ;;
       match r with
       | Some v => Eff.ret v
       | None => checkInstalled_for rest
       end)%eff
  end.

Definition checkInstalled : JS bool :=
  checkInstalled_for ["python3"; "python"].

(** The template literal [`skskyforge ${args}`]. *)
Definition run_command (args : string) : string := "skskyforge " ++ args.

Definition run (args : string) : JS ExecOutput :=
  execSync (run_command args) (mkExecOptions None (Some EncodingUtf8)).

(** [run(v)] for a value of any of the kinds above: the template literal
    [`skskyforge ${args}`] converts [v] first. *)
Definition run_value (v : JsValue) : JS ExecOutput :=
  run (ToString v).

(** The commands a log shows, in the order they were started. *)
Fixpoint commands (l : list Event) : list string :=
  match l with
  | [] => []
  | Spawned c :: l' => c :: commands l'
  | StderrWrite _ :: l' => commands l'
  end.

End Bridge.

Arguments world {World} s.
Arguments log {World} s.
Arguments execSync {World} shell decode command options _.
Arguments checkInstalled_body {World} shell decode py _.
Arguments checkInstalled_for {World} shell decode pys _.
Arguments checkInstalled {World} shell decode _.
Arguments run {World} shell decode args _.
Arguments run_value {World} shell decode v _.

(** ** Machines to run the module on

    The world counts the processes it has run.  On the first machine
    [skskyforge --version] prints a version line and exits with 0;
    [python3] is missing (the shell exits with 127) while [python] finds
    the package; anything else makes [skskyforge] exit with 2 after a usage
    line on stderr. *)

Definition bytes (s : string) : Buffer := list_byte_of_string s.

Definition demo_decode (enc : string) (b : Buffer) : string :=
  string_of_list_byte b.

Definition exited (code : Z) (out err : string) : SpawnResult :=
  mkSpawnResult None (Some code) None (bytes out) (bytes err).

Definition demo_shell (w : nat) (cmd : string) : nat * SpawnResult :=
  (S w,
   if (cmd =? "skskyforge --version")%string
   then exited 0 "skskyforge, version 1.0.0" EmptyString
   else if (cmd =? "python3 -c " ++ dq ++ "import skskyforge" ++ dq)%string
   then exited 127 EmptyString "/bin/sh: 1: python3: not found"
   else if (cmd =? "python -c " ++ dq ++ "import skskyforge" ++ dq)%string
   then exited 0 EmptyString EmptyString
   else exited 2 EmptyString "Usage: skskyforge [OPTIONS] COMMAND [ARGS]...").

Definition demo_start : State nat := mkState nat 0%nat [].

(** A second machine: [python3] is there but cannot import the package (the
    interpreter exits with 1 after a traceback), while [python] can. *)
Definition demo_shell_no_package (w : nat) (cmd : string)
  : nat * SpawnResult :=
  (S w,
   if (cmd =? "python3 -c " ++ dq ++ "import skskyforge" ++ dq)%string
   then exited 1 EmptyString
               "ModuleNotFoundError: No module named 'skskyforge'"
   else if (cmd =? "python -c " ++ dq ++ "import skskyforge" ++ dq)%string
   then exited 0 EmptyString EmptyString
   else exited 127 EmptyString "/bin/sh: 1: skskyforge: not found").

(** An argument string with a null character in it. *)
Definition args_with_nul : string :=
  "daily" ++ String "000"%char "--format json".

(* ===================================================================== *)
(** * Part II.  The alignment core *)
(* ===================================================================== *)

(** [index.js] only calls the [skskyforge] program; the engine behind that
    program is not part of the sources at hand.  Every definition of this
    part is therefore written from the specification, section by section. *)

Module Core.

(** ** Calendar dates *)

(** Modelled from the spec: the "calendar date" of section 3 (the engine's
    date type is missing); proleptic Gregorian year, month and day. *)
Record Date : Type := mkDate {
  year  : Z;
  month : Z;
  day   : Z
}.

(** Modelled from the spec: the leap-year rule behind the example of
    section 8 (2024 is a leap year, 2026 is not). *)
Definition is_leap (y : Z) : bool :=
  (y mod 4 =? 0) && (negb (y mod 100 =? 0) || (y mod 400 =? 0)).

(** Modelled from the spec: month lengths of the calendar of section 3. *)
Definition days_in_month (y m : Z) : Z :=
  match m with
  | 2 => if is_leap y then 29 else 28
  | 4 | 6 | 9 | 11 => 30
  | _ => 31
  end.

(** Modelled from the spec: what makes a triple a calendar date. *)
Definition valid_date (d : Date) : bool :=
  (1 <=? month d) && (month d <=? 12) &&
  (1 <=? day d) && (day d <=? days_in_month (year d) (month d)).

(** Modelled from the spec: days of the year that precede month [m]. *)
Definition days_before_month (y m : Z) : Z :=
  match m with
  | 1 => 0 | 2 => 31 | 3 => 59 | 4 => 90 | 5 => 120 | 6 => 151
  | 7 => 181 | 8 => 212 | 9 => 243 | 10 => 273 | 11 => 304 | 12 => 334
  | _ => 0
  end + (if is_leap y && (2 <? m) then 1 else 0).

(** Modelled from the spec: days that precede 1 January of year [y],
    counted from 1 January of year 1. *)
Definition days_before_year (y : Z) : Z :=
  365 * (y - 1) + (y - 1) / 4 - (y - 1) / 100 + (y - 1) / 400.

(** Modelled from the spec: the "Julian day" of section 4.5, the day
    number on which all date arithmetic is done. *)
Definition julianDay (d : Date) : Z :=
  1721425 + days_before_year (year d)
  + days_before_month (year d) (month d) + day d.

(** Modelled from the spec: the step of the Calendar Builder's iteration
    over a date range (section 4.5). *)
Definition next_day (d : Date) : Date :=
  if day d <? days_in_month (year d) (month d)
  then mkDate (year d) (month d) (day d + 1)
  else if month d <? 12
       then mkDate (year d) (month d + 1) 1
       else mkDate (year d + 1) 1 1.

(** Modelled from the spec: the dates of an inclusive range, [n] of them
    from [d] on. *)
Fixpoint days_from (d : Date) (n : nat) : list Date :=
  match n with
  | O => []
  | S k => d :: days_from (next_day d) k
  end.

(** Modelled from the spec: the inclusive date range of section 4.5. *)
Definition date_range (first last : Date) : list Date :=
  days_from first (Z.to_nat (julianDay last - julianDay first + 1)).

(** ** Numerology *)

(** Modelled from the spec: the digit sum of "numerology via digit-sum
    reduction" (section 4.1). *)
Equations? digit_sum (n : nat) : nat by wf n lt :=
  digit_sum n with lt_dec n 10 := {
    | left _ => n
    | right _ => (n mod 10 + digit_sum (n / 10))%nat }.
Proof.
  assert (H : (n / 10 < n)%nat) by (apply Nat.div_lt; lia).
  exact H.
Qed.

(** Modelled from the spec: the "master-number exceptions at 11/22/33". *)
Definition is_master (n : nat) : bool :=
  (n =? 11)%nat || (n =? 22)%nat || (n =? 33)%nat.

(** Modelled from the spec: a number at which the reduction stops. *)
Definition is_reduced (n : nat) : bool := (n <=? 9)%nat || is_master n.

Lemma digit_sum_le (n : nat) : (digit_sum n <= n)%nat.
Proof.
  funelim (digit_sum n); [lia|].
  change (fst (Nat.divmod n 9 0 9)) with (n / 10)%nat in H.
  pose proof (Nat.div_mod_eq n 10). lia.
Qed.

Lemma digit_sum_lt (n : nat) : (10 <= n)%nat -> (digit_sum n < n)%nat.
Proof.
  intros Hn. funelim (digit_sum n); [lia|]. clear H.
  pose proof (digit_sum_le (n / 10)).
  pose proof (Nat.div_mod_eq n 10).
  assert (1 <= n / 10)%nat by (apply Nat.div_le_lower_bound; lia).
  lia.
Qed.

(** Modelled from the spec: "digit-sum reduction with master-number
    exceptions at 11/22/33": digits are summed again and again until the
    number has one digit or is a master number. *)
Equations? reduce (n : nat) : nat by wf n lt :=
  reduce n with bool_dec (is_reduced n) true := {
    | left _ => n
    | right E => reduce (digit_sum n) }.
Proof.
  apply digit_sum_lt. apply not_true_is_false in E.
  unfold is_reduced in E.
  apply orb_false_iff in E. destruct E as [E _].
  apply Nat.leb_gt in E. lia.
Qed.

(** Modelled from the spec: the life-path number, "computed purely from"
    the birth date (section 8): the digits of year, month and day are
    summed and the sum is reduced. *)
Definition life_path (b : Date) : nat :=
  reduce (digit_sum (Z.to_nat (year b)) + digit_sum (Z.to_nat (month b))
          + digit_sum (Z.to_nat (day b)))%nat.

(** Modelled from the spec: the values a life-path number may take,
    "{1..9, 11, 22, 33}". *)
Definition life_path_values : list nat :=
  [1; 2; 3; 4; 5; 6; 7; 8; 9; 11; 22; 33]%nat.

(** ** The data model (section 3) *)

(** Modelled from the spec: the optional time of day of a Profile. *)
Record Time : Type := mkTime {
  hour   : Z;
  minute : Z
}.

(** Modelled from the spec: the optional location of a Profile,
    "latitude, longitude, IANA timezone name". *)
Record Location : Type := mkLocation {
  latitude  : Q;
  longitude : Q;
  zone      : string
}.

(** Modelled from the spec: the Profile record; the birth date is the
    required field whose absence makes a profile structurally invalid. *)
Record Profile : Type := mkProfile {
  name      : string;
  birthDate : option Date;
  birthTime : option Time;
  location  : option Location
}.

(** Modelled from the spec: the six domains of section 2. *)
Inductive Domain : Type :=
| Moon | Numerology | SolarReturn | HumanDesign | IChing | Biorhythm.

(** Modelled from the spec: the domains in the order section 2 lists
    them; the order in which a report carries their results. *)
Definition all_domains : list Domain :=
  [Moon; Numerology; SolarReturn; HumanDesign; IChing; Biorhythm].

(** Modelled from the spec: equality of domain tags. *)
Definition domain_eqb (a b : Domain) : bool :=
  match a, b with
  | Moon, Moon | Numerology, Numerology | SolarReturn, SolarReturn
  | HumanDesign, HumanDesign | IChing, IChing | Biorhythm, Biorhythm => true
  | _, _ => false
  end.

(** Modelled from the spec: the "zodiac sign enum". *)
Inductive Zodiac : Type :=
| Aries | Taurus | Gemini | Cancer | Leo | Virgo
| Libra | Scorpio | Sagittarius | Capricorn | Aquarius | Pisces.

(** Modelled from the spec: the raw values of a DomainResult.  Biorhythm
    values are fixed-precision numbers, held as a count of
    ten-thousandths; the domains whose rules the spec leaves open carry
    named integer fields. *)
Inductive Values : Type :=
| MoonValues (phase : Q) (sign : Zodiac)
| NumerologyValues (lifePath : nat)
| BiorhythmValues (physical emotional intellectual : Z)
| IChingValues (hexagram : Z)
| OtherValues (fields : list (string * Z)).

(** Modelled from the spec: the DomainResult, a tagged record with the
    informational degradation flags of section 7 and the timezone the
    calculator worked in. *)
Record DomainResult : Type := mkDomainResult {
  domain            : Domain;
  values            : Values;
  locationDegraded  : bool;
  birthTimeDegraded : bool;
  recordedTimezone  : string
}.


(** Modelled from the spec: the RiskAssessment of section 3. *)
Record RiskAssessment : Type := mkRisk {
  score    : Z;
  warnings : list string
}.

(** Modelled from the spec: the Recommendation of section 3. *)
Record Recommendation : Type := mkRecommendation {
  exercise    : string;
  nourishment : string;
  reading     : Z
}.

(** Modelled from the spec: the DailyReport of section 3. *)
Record DailyReport : Type := mkDailyReport {
  date           : Date;
  profile        : Profile;
  results        : list DomainResult;
  risk           : RiskAssessment;
  recommendation : Recommendation
}.

(** Modelled from the spec: the Calendar of section 3. *)
Record Calendar : Type := mkCalendar {
  owner   : Profile;
  first   : Date;
  last    : Date;
  reports : list DailyReport
}.

(** Modelled from the spec: the two fatal error kinds of section 7. *)
Inductive CoreError : Type :=
| ProfileInvalid
| DateRangeInvalid.

(** Modelled from the spec: the "precomputed per-profile context" of
    section 4.5, derived once from a profile that has a birth date. *)
Record Context : Type := mkContext {
  subject           : Profile;
  birth             : Date;
  birthJulianDay    : Z;
  lifePathNumber    : nat;
  zoneUsed          : string;
  locationDefaulted : bool;
  timeDefaulted     : bool
}.

(** Modelled from the spec: what the spec leaves to "a documented rule
    set": the lunar constants, the rules of the domains it does not
    define, and the weights and catalog of the two consumers. *)
Class Rules : Type := mkRules {
  ticks_per_day  : Z;
  new_moon_epoch : Z;
  synodic_month  : positive;
  moon_sign      : Z -> Zodiac;
  solar_return   : Context -> Date -> list (string * Z);
  human_design   : Context -> Date -> list (string * Z);
  i_ching        : Context -> Date -> Z;
  time_sensitive : Domain -> bool;
  aggregate      : list DomainResult -> RiskAssessment;
  select         : list DomainResult -> Recommendation
}.

(** ** Domain calculators (section 4.1) *)

(** Modelled from the spec: rounding "to a fixed precision": the nearest
    integer, halves upwards. *)
Definition nearest (x : R) : Z := up (x - / 2).

(** Modelled from the spec: one biorhythm cycle, a "sinusoidal function
    of days-alive" with the given period, rounded to four decimal places
    and held as a count of ten-thousandths. *)
Definition biorhythm_cycle (period days : Z) : Z :=
  nearest (10000 * sin (2 * PI * IZR days / IZR period)).

(** Modelled from the spec: the value a count of ten-thousandths
    stands for. *)
Definition fixed4 (u : Z) : Q := u # 10000.

(** Modelled from the spec: the instant of a target date on the time
    axis of the lunar constants. *)
Definition moon_instant {rules : Rules} (d : Date) : Z :=
  julianDay d * ticks_per_day.

(** Modelled from the spec: "moon phase via synodic-month epoch
    arithmetic", in exact rational arithmetic: the time since the
    reference new moon, modulo the synodic month, as a fraction of it. *)
Definition moon_phase {rules : Rules} (d : Date) : Q :=
  ((moon_instant d - new_moon_epoch) mod Z.pos synodic_month)
    # synodic_month.

(** Modelled from the spec: the domains whose results the example of
    section 8 marks location-degraded. *)
Definition location_dependent (dom : Domain) : bool :=
  match dom with
  | Moon | SolarReturn => true
  | _ => false
  end.

(** Modelled from the spec: the per-profile constants, "computed once":
    life-path number, birth Julian day, and the resolved timezone with
    its UTC fallback. *)
Definition precompute (p : Profile) (b : Date) : Context :=
  {| subject := p;
     birth := b;
     birthJulianDay := julianDay b;
     lifePathNumber := life_path b;
     zoneUsed := match location p with
                 | Some l => zone l
                 | None => "UTC"
                 end;
     locationDefaulted := match location p with
                          | Some _ => false
                          | None => true
                          end;
     timeDefaulted := match birthTime p with
                      | Some _ => false
                      | None => true
                      end |}.

(** Modelled from the spec: the raw values each calculator derives. *)
Definition raw_values {rules : Rules} (dom : Domain) (ctx : Context) (d : Date)
  : Values :=
  match dom with
  | Moon => MoonValues (moon_phase d) (moon_sign (moon_instant d))
  | Numerology => NumerologyValues (lifePathNumber ctx)
  | SolarReturn => OtherValues (solar_return ctx d)
  | HumanDesign => OtherValues (human_design ctx d)
  | IChing => IChingValues (i_ching ctx d)
  | Biorhythm =>
      let n := julianDay d - birthJulianDay ctx in
      BiorhythmValues (biorhythm_cycle 23 n) (biorhythm_cycle 28 n)
                      (biorhythm_cycle 33 n)
  end.

(** Modelled from the spec: the calculator contract
    [compute(profile, date) -> DomainResult]: total, with a flag instead
    of an error where an optional field was defaulted. *)
Definition compute {rules : Rules} (dom : Domain) (ctx : Context) (d : Date)
  : DomainResult :=
  {| domain := dom;
     values := raw_values dom ctx d;
     locationDegraded := location_dependent dom && locationDefaulted ctx;
     birthTimeDegraded := time_sensitive dom && timeDefaulted ctx;
     recordedTimezone := zoneUsed ctx |}.

(** ** Report Assembler (section 4.4) *)

(** Modelled from the spec: the assembler "invokes all Domain
    Calculators", "then Risk Aggregator, then Recommendation Selector,
    then packages the immutable DailyReport"; the results are kept in the
    order section 2 lists the domains. *)
Definition package {rules : Rules} (ctx : Context) (d : Date) : DailyReport :=
  let rs := map (fun dom => compute dom ctx d) all_domains in
  {| date := d;
     profile := subject ctx;
     results := rs;
     risk := aggregate rs;
     recommendation := select rs |}.

(** Modelled from the spec: [assemble(profile, date)]; it "fails only if
    the Profile itself is structurally invalid (missing required birth
    date)". *)
Definition assemble {rules : Rules} (p : Profile) (d : Date)
  : CoreError + DailyReport :=
  match birthDate p with
  | None => inl ProfileInvalid
  | Some b => inr (package (precompute p b) d)
  end.

(** Modelled from the spec: the public entry point for one day. *)
Definition computeDay {rules : Rules} (p : Profile) (d : Date)
  : CoreError + DailyReport :=
  assemble p d.

(** ** Calendar Builder (section 4.5) *)

(** Modelled from the spec: the "documented maximum" of a range, with the
    value section 7 gives, ten years. *)
Definition max_range_years : Z := 10.

(** Modelled from the spec: [DateRangeInvalid]: "end before start, or
    range exceeding a documented maximum": a range is in order when its
    end is not before its start and comes before the day
    [max_range_years] years after the start. *)
Definition range_ok (s e : Date) : bool :=
  (julianDay s <=? julianDay e) &&
  (julianDay e <?
   julianDay (mkDate (year s + max_range_years) (month s) (day s))).

(** Modelled from the spec: [build(profile, start, end)]: the context is
    derived once, then the assembler's work is done "once per date"
    over the inclusive range. *)
Definition build {rules : Rules} (p : Profile) (s e : Date)
  : CoreError + Calendar :=
  match birthDate p with
  | None => inl ProfileInvalid
  | Some b =>
      if range_ok s e then
        let ctx := precompute p b in
        inr {| owner := p;
               first := s;
               last := e;
               reports := map (package ctx) (date_range s e) |}
      else inl DateRangeInvalid
  end.

(** Modelled from the spec: the public entry point for a range. *)
Definition computeRange {rules : Rules} (p : Profile) (s e : Date)
  : CoreError + Calendar :=
  build p s e.

(** Modelled from the spec: a full-year build. *)
Definition computeYear {rules : Rules} (p : Profile) (y : Z)
  : CoreError + Calendar :=
  computeRange p (mkDate y 1 1) (mkDate y 12 31).

(** ** A rule set and a profile to run the model on *)

(** One rule set, to run the model on: time in nanodays, the mean synodic
    month of 29.530588853 days counted from the new moon of 6 January
    2000, and trivial rules where the spec leaves the rule open. *)
Definition sample_rules : Rules :=
  {| ticks_per_day := 1000000000;
     new_moon_epoch := 2451550260000000;
     synodic_month := 29530588853;
     moon_sign := fun _ => Aries;
     solar_return := fun _ _ => [];
     human_design := fun _ _ => [];
     i_ching := fun _ _ => 1;
     time_sensitive := fun dom =>
       match dom with Biorhythm => true | _ => false end;
     aggregate := fun _ => mkRisk 0 [];
     select := fun _ => mkRecommendation "rest" "water" 0 |}.

(** Modelled from the spec: the profile of the example of section 8,
    "birthDate=1992-06-21, no time, no location". *)
Definition luna : Profile :=
  mkProfile "luna" (Some (mkDate 1992 6 21)) None None.

(** The same person with a place of birth. *)
Definition luna_in_austin : Profile :=
  mkProfile "luna" (Some (mkDate 1992 6 21)) None
            (Some (mkLocation (3027 # 100) (- 9774 # 100) "America/Chicago")).

End Core.

(* ===================================================================== *)
(** * Part III.  Properties of the bridge *)
(* ===================================================================== *)

Section BridgeFacts.

Variable World : Type.
Variable shell : World -> string -> World * SpawnResult.
Variable decode : string -> Buffer -> string.

Implicit Types (st : State World) (r : SpawnResult) (cmd args : string).

Lemma has_nul_app (a b : string) :
  has_nul (a ++ b) = has_nul a || has_nul b.
Proof.
  induction a as [|c a IH]; simpl; [reflexivity|].
  rewrite IH. apply orb_assoc.
Qed.

Lemma commands_app (l l' : list Event) :
  commands (l ++ l') = (commands l ++ commands l')%list.
Proof.
  induction l as [|[c|d] l IH]; simpl; rewrite ?IH; reflexivity.
Qed.

Lemma checkExecSyncError_none enc r cmd :
  succeeded r = true ->
  checkExecSyncError decode (returned decode enc r) cmd = None.
Proof.
  unfold succeeded, checkExecSyncError, returned. simpl.
  destruct (error r); [discriminate|].
  destruct (status r) as [[| |]|]; intros; try discriminate; reflexivity.
Qed.

Lemma checkExecSyncError_some enc r cmd :
  succeeded r = false ->
  exists msg,
    checkExecSyncError decode (returned decode enc r) cmd =
    Some (ExecFailed msg (returned decode enc r)).
Proof.
  unfold succeeded, checkExecSyncError. simpl.
  destruct (error r); [eexists; reflexivity|].
  destruct (status r) as [[| |]|]; intros; try discriminate;
    eexists; reflexivity.
Qed.

(** A command with a null character is refused before anything happens. *)
Lemma execSync_nul cmd (o : ExecOptions) st :
  has_nul cmd = true ->
  execSync shell decode cmd o st = (st, Throw (InvalidArgValue "command" cmd)).
Proof.
  intros H. unfold execSync. rewrite H. reflexivity.
Qed.

(** Where [execSync] leaves the machine otherwise: in the world the
    command left, with the command appended to the list of commands run. *)
Lemma execSync_state cmd (o : ExecOptions) st :
  has_nul cmd = false ->
  world (fst (execSync shell decode cmd o st)) = fst (shell (world st) cmd) /\
  commands (log (fst (execSync shell decode cmd o st))) =
    (commands (log st) ++ [cmd])%list.
Proof.
  intros H. unfold execSync. rewrite H.
  destruct (shell (world st) cmd) as [w' r]. simpl.
  destruct (checkExecSyncError decode _ cmd);
    simpl; (split; [reflexivity|]); rewrite commands_app;
    destruct (_ && _); reflexivity.
Qed.

Lemma execSync_completion cmd (o : ExecOptions) st :
  has_nul cmd = false ->
  snd (execSync shell decode cmd o st) =
  match checkExecSyncError decode
          (returned decode (encoding o) (snd (shell (world st) cmd))) cmd with
  | Some err => Throw err
  | None =>
      Normal (captured decode (encoding o)
                (stdout (snd (shell (world st) cmd))))
  end.
Proof.
  intros H. unfold execSync. rewrite H.
  destruct (shell (world st) cmd) as [w' r]. simpl.
  destruct (checkExecSyncError decode _ cmd); reflexivity.
Qed.

(** One turn of the loop never throws. *)
Lemma checkInstalled_body_never_throws py st :
  exists o, snd (checkInstalled_body shell decode py st) = Normal o.
Proof.
  unfold checkInstalled_body, Eff.try_catch, Eff.bind, Eff.ret.
  destruct (execSync shell decode (import_command py) _ st) as [s' [a|e]];
    eexists; reflexivity.
Qed.

(** On a command without a null character, one turn of the loop reports
    [Some true] when the interpreter could import the package and falls
    through otherwise; it writes nothing to stderr. *)
Lemma checkInstalled_body_spec py st :
  has_nul (import_command py) = false ->
  checkInstalled_body shell decode py st =
  (mkState World (fst (shell (world st) (import_command py)))
           (log st ++ [Spawned (import_command py)]),
   if succeeded (snd (shell (world st) (import_command py)))
   then Normal (Some true) else Normal None).
Proof.
  intros H.
  unfold checkInstalled_body, Eff.try_catch, Eff.bind, Eff.ret, execSync.
  rewrite H.
  destruct (shell (world st) (import_command py)) as [w' r]. simpl.
  destruct (succeeded r) eqn:Hs.
  - rewrite (checkExecSyncError_none None r _ Hs). reflexivity.
  - destruct (checkExecSyncError_some None r (import_command py) Hs)
      as [msg He].
    rewrite He. reflexivity.
Qed.

Lemma checkInstalled_for_returns (pys : list string) st :
  exists b, snd (checkInstalled_for shell decode pys st) = Normal b.
Proof.
  revert st. induction pys as [|py rest IH]; intros st; simpl.
  - exists false. reflexivity.
  - unfold Eff.bind.
    destruct (checkInstalled_body_never_throws py st) as [o Ho].
    destruct (checkInstalled_body shell decode py st) as [s' c].
    simpl in Ho. subst c. destruct o as [v|].
    + exists v. reflexivity.
    + apply IH.
Qed.

(** C8: [checkInstalled()] always returns a boolean and never throws.
    It first has the shell run [python3 -c "import skskyforge"]; when
    that succeeds nothing else is run and the answer is [true]; otherwise
    it has the shell run [python -c "import skskyforge"] in the world the
    first attempt left, and the answer is whether that second attempt
    succeeded, so [false] exactly when both fail. *)
Theorem checkInstalled_total st :
  let try3 :=
    ("python3 -c " ++ String "034"%char "import skskyforge"
       ++ String "034"%char EmptyString)%string in
  let try2 :=
    ("python -c " ++ String "034"%char "import skskyforge"
       ++ String "034"%char EmptyString)%string in
  let a1 := shell (world st) try3 in
  let a2 := shell (fst a1) try2 in
  (exists b : bool, snd (checkInstalled shell decode st) = Normal b) /\
  checkInstalled shell decode st =
  if succeeded (snd a1)
  then (mkState World (fst a1) (log st ++ [Spawned try3]), Normal true)
  else (mkState World (fst a2) (log st ++ [Spawned try3; Spawned try2]),
        Normal (succeeded (snd a2))).
Proof.
  intros try3 try2 a1 a2. split.
  - apply checkInstalled_for_returns.
  - unfold checkInstalled. simpl. unfold Eff.bind.
    rewrite (checkInstalled_body_spec "python3" st eq_refl).
    change (import_command "python3") with try3. fold a1.
    destruct (succeeded (snd a1)); [reflexivity|].
    rewrite (checkInstalled_body_spec "python" _ eq_refl).
    change (import_command "python") with try2. simpl. fold a2.
    rewrite <- app_assoc. simpl.
    destruct (succeeded (snd a2)); reflexivity.
Qed.

(** C10, amended: for every string [args] without a null character, the
    one command [run(args)] hands to the shell is the text "skskyforge "
    followed by [args] as it is: the world after the call is the world
    that command left, and the commands run are the earlier ones
    followed by exactly that text.  For [args] with a null character,
    the argument validation of [execSync] throws, no shell is started and
    the machine is left as it was. *)
Theorem run_command_is_concatenation args st :
  (has_nul args = false ->
   world (fst (run shell decode args st)) =
     fst (shell (world st) ("skskyforge " ++ args)) /\
   commands (log (fst (run shell decode args st))) =
     (commands (log st) ++ [("skskyforge " ++ args)%string])%list) /\
  (has_nul args = true ->
   run shell decode args st =
     (st, Throw (InvalidArgValue "command" ("skskyforge " ++ args)))).
Proof.
  unfold run, run_command. split; intros H.
  - apply execSync_state. exact H.
  - apply execSync_nul. exact H.
Qed.



End BridgeFacts.

(** The bridge on the demonstration machine. *)

Example checkInstalled_demo :
  checkInstalled demo_shell demo_decode demo_start =
  (mkState nat 2%nat
     [Spawned ("python3 -c " ++ dq ++ "import skskyforge" ++ dq);
      Spawned ("python -c " ++ dq ++ "import skskyforge" ++ dq)],
   Normal true).
Proof. reflexivity. Qed.

Example run_demo_metacharacters :
  commands (log (fst (run demo_shell demo_decode "daily; echo $HOME"
                          demo_start))) =
  ["skskyforge daily; echo $HOME"].
Proof. reflexivity. Qed.

Example run_demo_stderr :
  log (fst (run demo_shell demo_decode "daily --bogus" demo_start)) =
  [Spawned "skskyforge daily --bogus";
   StderrWrite (OutString "Usage: skskyforge [OPTIONS] COMMAND [ARGS]...")].
Proof. reflexivity. Qed.

(** C10, as stated, fails on a string with a null character: no command
    is executed at all, [run] throws and the machine is untouched. *)
Lemma run_command_counterexample :
  has_nul args_with_nul = true /\
  commands (log (fst (run demo_shell demo_decode args_with_nul demo_start)))
    = [] /\
  run demo_shell demo_decode args_with_nul demo_start =
    (demo_start,
     Throw (InvalidArgValue "command" ("skskyforge " ++ args_with_nul))).
Proof.
  repeat split.
Qed.

Lemma run_command_is_concatenation_witness :
  has_nul "--version" = false /\
  commands (log (fst (run demo_shell demo_decode "--version" demo_start))) =
    ["skskyforge --version"].
Proof.
  split; [reflexivity|].
  apply (proj1 (run_command_is_concatenation nat demo_shell demo_decode
                  "--version" demo_start)).
  reflexivity.
Defined.



(* ===================================================================== *)
(** * Part IV.  Properties of the alignment core *)
(* ===================================================================== *)

Module CoreFacts.
Import Core.

(** ** Numerology *)

Example life_path_luna : life_path (mkDate 1992 6 21) = 3%nat.
Proof. reflexivity. Qed.

Example reduce_keeps_master : reduce 29 = 11%nat /\ reduce 39 = 3%nat.
Proof. split; reflexivity. Qed.

Example julianDay_2000 : julianDay (mkDate 2000 1 1) = 2451545.
Proof. reflexivity. Qed.

Example next_day_leap :
  next_day (mkDate 2024 2 28) = mkDate 2024 2 29 /\
  next_day (mkDate 2026 2 28) = mkDate 2026 3 1 /\
  next_day (mkDate 2026 12 31) = mkDate 2027 1 1.
Proof. repeat split; reflexivity. Qed.

Lemma digit_sum_pos (n : nat) : (0 < n)%nat -> (0 < digit_sum n)%nat.
Proof.
  funelim (digit_sum n); intros Hn; [exact Hn|].
  change (fst (Nat.divmod n 9 0 9)) with (n / 10)%nat in H.
  assert (1 <= n / 10)%nat by (apply Nat.div_le_lower_bound; lia).
  lia.
Qed.

Lemma is_reduced_values (n : nat) :
  (0 < n)%nat -> is_reduced n = true -> In n life_path_values.
Proof.
  unfold is_reduced, is_master, life_path_values. intros Hn H.
  repeat (apply orb_true_iff in H; destruct H as [H|H]).
  - apply Nat.leb_le in H. simpl. lia.
  - apply Nat.eqb_eq in H. simpl. lia.
  - apply Nat.eqb_eq in H. simpl. lia.
  - apply Nat.eqb_eq in H. simpl. lia.
Qed.

Lemma reduce_values (n : nat) :
  (0 < n)%nat -> In (reduce n) life_path_values.
Proof.
  funelim (reduce n); intros Hn.
  - apply is_reduced_values; assumption.
  - apply H. apply digit_sum_pos. exact Hn.
Qed.

Lemma life_path_in_values (b : Date) :
  valid_date b = true -> In (life_path b) life_path_values.
Proof.
  intros Hv. unfold life_path. apply reduce_values.
  unfold valid_date in Hv.
  repeat (apply andb_true_iff in Hv; destruct Hv as [Hv ?]).
  apply Z.leb_le in Hv.
  assert (0 < digit_sum (Z.to_nat (month b)))%nat
    by (apply digit_sum_pos; lia).
  lia.
Qed.

(** ** Biorhythm *)

Lemma nearest_bounds (x : R) (n : Z) :
  (IZR (- n) <= x <= IZR n)%R -> - n <= nearest x <= n.
Proof.
  intros [Hlo Hhi]. unfold nearest.
  destruct (archimed (x - / 2)) as [Hgt Hle].
  split.
  - assert (H : (IZR (- n - 1) < IZR (up (x - / 2)))%R).
    { rewrite minus_IZR. lra. }
    apply lt_IZR in H. lia.
  - assert (H : (IZR (up (x - / 2)) < IZR (n + 1))%R).
    { rewrite plus_IZR. lra. }
    apply lt_IZR in H. lia.
Qed.

Lemma biorhythm_cycle_bounds (period days : Z) :
  - 10000 <= biorhythm_cycle period days <= 10000.
Proof.
  unfold biorhythm_cycle. apply (nearest_bounds _ 10000).
  pose proof (SIN_bound (2 * PI * IZR days / IZR period)) as Hs.
  simpl. lra.
Qed.

Lemma fixed4_unit_interval (u : Z) :
  - 10000 <= u <= 10000 -> (- (1) <= fixed4 u <= 1)%Q.
Proof.
  intros Hu. unfold fixed4, Qle. simpl. lia.
Qed.

(** ** Moon *)

Lemma moon_phase_bounds {rules : Rules} (d : Date) :
  (0 <= moon_phase d)%Q /\ (moon_phase d < 1)%Q.
Proof.
  unfold moon_phase, Qle, Qlt. simpl.
  pose proof (Z.mod_pos_bound (moon_instant d - new_moon_epoch)
                (Z.pos synodic_month) (Pos2Z.is_pos _)).
  lia.
Qed.

(** C2: whatever the profile and the target date, the three biorhythm
    cycle values of the Biorhythm result lie in [-1, 1], the phase
    fraction of the Moon result lies in [0, 1), and the life-path number
    of the Numerology result is one of 1..9, 11, 22, 33.  The birth date
    is a calendar date. *)
Theorem range_invariants {rules : Rules} (p : Profile) (b d : Date) :
  valid_date b = true ->
  let ctx := precompute p b in
  (exists x y z,
      values (compute Biorhythm ctx d) = BiorhythmValues x y z /\
      (- (1) <= fixed4 x <= 1)%Q /\
      (- (1) <= fixed4 y <= 1)%Q /\
      (- (1) <= fixed4 z <= 1)%Q) /\
  (exists phase sign,
      values (compute Moon ctx d) = MoonValues phase sign /\
      (0 <= phase)%Q /\ (phase < 1)%Q) /\
  (exists n,
      values (compute Numerology ctx d) = NumerologyValues n /\
      In n life_path_values).
Proof.
  intros Hb ctx. split; [|split].
  - do 3 eexists. split; [reflexivity|].
    repeat split;
      apply fixed4_unit_interval; apply biorhythm_cycle_bounds.
  - do 2 eexists. split; [reflexivity|]. apply moon_phase_bounds.
  - eexists. split; [reflexivity|]. simpl.
    apply life_path_in_values. exact Hb.
Qed.

Lemma range_invariants_witness :
  valid_date (mkDate 1992 6 21) = true /\
  exists n,
    values (compute (rules := sample_rules) Numerology
              (precompute luna (mkDate 1992 6 21)) (mkDate 2026 3 20))
    = NumerologyValues n /\ In n life_path_values.
Proof.
  split; [reflexivity|].
  apply (range_invariants (rules := sample_rules) luna (mkDate 1992 6 21)
           (mkDate 2026 3 20)).
  reflexivity.
Defined.

(** ** Dates *)

Lemma is_leap_spec (y : Z) :
  is_leap y = true <->
  (y mod 4 = 0 /\ (y mod 100 <> 0 \/ y mod 400 = 0)).
Proof.
  unfold is_leap.
  rewrite andb_true_iff, orb_true_iff, negb_true_iff.
  rewrite !Z.eqb_eq, Z.eqb_neq. tauto.
Qed.

Lemma days_before_year_succ (y : Z) :
  days_before_year (y + 1) =
  days_before_year y + (if is_leap y then 366 else 365).
Proof.
  unfold days_before_year.
  replace (y + 1 - 1) with (y - 1 + 1) by lia.
  destruct (is_leap y) eqn:E.
  - apply is_leap_spec in E. Z.div_mod_to_equations. lia.
  - assert (E' : ~ (y mod 4 = 0 /\ (y mod 100 <> 0 \/ y mod 400 = 0))).
    { rewrite <- is_leap_spec. congruence. }
    Z.div_mod_to_equations. lia.
Qed.

Lemma valid_date_spec (d : Date) :
  valid_date d = true <->
  (1 <= month d <= 12 /\
   1 <= day d <= days_in_month (year d) (month d)).
Proof.
  unfold valid_date. rewrite !andb_true_iff, !Z.leb_le. tauto.
Qed.

Ltac month_cases m H :=
  assert (m = 1 \/ m = 2 \/ m = 3 \/ m = 4 \/ m = 5 \/ m = 6 \/
          m = 7 \/ m = 8 \/ m = 9 \/ m = 10 \/ m = 11 \/ m = 12)
    as H by lia;
  repeat (destruct H as [H|H]); subst m.

Lemma days_in_month_cases (y m : Z) :
  1 <= m <= 12 ->
  days_before_month y m + days_in_month y m =
  if m =? 12 then (if is_leap y then 366 else 365)
  else days_before_month y (m + 1).
Proof.
  intros Hm. month_cases m Hc; try lia;
    unfold days_before_month, days_in_month;
    destruct (is_leap y); reflexivity.
Qed.

Lemma days_in_month_pos (y m : Z) : 28 <= days_in_month y m <= 31.
Proof.
  unfold days_in_month.
  repeat match goal with
         | |- context [match ?x with _ => _ end] => destruct x
         end; lia.
Qed.

(** The day after a calendar date is a calendar date, one day later. *)
Lemma next_day_spec (d : Date) :
  valid_date d = true ->
  valid_date (next_day d) = true /\
  julianDay (next_day d) = julianDay d + 1.
Proof.
  destruct d as [y m dd]. rewrite !valid_date_spec.
  unfold next_day, julianDay. cbn [year month day].
  intros [Hm Hd].
  pose proof (days_in_month_cases y m Hm) as Hc.
  destruct (dd <? days_in_month y m) eqn:Hlt.
  - apply Z.ltb_lt in Hlt. cbn [year month day]. lia.
  - apply Z.ltb_ge in Hlt. assert (dd = days_in_month y m) by lia. subst dd.
    destruct (m <? 12) eqn:Hm12.
    + apply Z.ltb_lt in Hm12. cbn [year month day].
      pose proof (days_in_month_pos y (m + 1)).
      destruct (Z.eqb_spec m 12); lia.
    + apply Z.ltb_ge in Hm12. cbn [year month day].
      assert (m = 12) by lia. subst m.
      rewrite days_before_year_succ.
      change (days_before_month (y + 1) 1) with
        (0 + (if is_leap (y + 1) && false then 1 else 0)).
      rewrite andb_false_r.
      change (12 =? 12) with true in Hc.
      change (days_in_month (y + 1) 1) with 31.
      destruct (is_leap y); lia.
Qed.

Lemma days_from_length (n : nat) (d : Date) :
  List.length (days_from d n) = n.
Proof.
  revert d. induction n as [|n IH]; intros d; simpl; [|rewrite IH];
    reflexivity.
Qed.

(** The dates of a range are calendar dates on consecutive days. *)
Lemma days_from_nth (n : nat) (d : Date) (i : nat) (x : Date) :
  valid_date d = true ->
  nth_error (days_from d n) i = Some x ->
  valid_date x = true /\ julianDay x = julianDay d + Z.of_nat i.
Proof.
  revert d i. induction n as [|n IH]; intros d i Hv Hx.
  - destruct i; discriminate.
  - destruct i as [|i]; simpl in Hx.
    + injection Hx as <-. split; [exact Hv|lia].
    + destruct (next_day_spec d Hv) as [Hv' Hj].
      destruct (IH _ _ Hv' Hx) as [Hvx Hjx].
      split; [exact Hvx|]. rewrite Hjx, Hj. lia.
Qed.

Lemma days_before_year_mono (a b : Z) :
  a <= b -> days_before_year a <= days_before_year b.
Proof.
  intros Hab. unfold days_before_year. Z.div_mod_to_equations. lia.
Qed.

Lemma days_before_month_mono (y m1 m2 : Z) :
  1 <= m1 -> m1 < m2 -> m2 <= 12 ->
  days_before_month y m1 + days_in_month y m1 <= days_before_month y m2.
Proof.
  intros H1 H12 H2.
  month_cases m1 Hc1; month_cases m2 Hc2; try lia;
    unfold days_before_month, days_in_month;
    destruct (is_leap y); cbn; lia.
Qed.

Lemma day_of_year_bounds (d : Date) :
  valid_date d = true ->
  1 <= days_before_month (year d) (month d) + day d
    <= (if is_leap (year d) then 366 else 365).
Proof.
  rewrite valid_date_spec. destruct d as [y m dd]. cbn [year month day].
  intros [Hm Hd]. split.
  - assert (0 <= days_before_month y m); [|lia].
    unfold days_before_month.
    month_cases m Hc; try lia; destruct (is_leap y); cbn; lia.
  - destruct (Z.eq_dec m 12) as [->|Hne].
    + pose proof (days_in_month_cases y 12 ltac:(lia)) as Hc.
      change (12 =? 12) with true in Hc. cbv iota in Hc. lia.
    + pose proof (days_before_month_mono y m 12 ltac:(lia) ltac:(lia)
                    ltac:(lia)).
      pose proof (days_in_month_cases y 12 ltac:(lia)) as Hc.
      change (12 =? 12) with true in Hc. cbv iota in Hc.
      pose proof (days_in_month_pos y 12). lia.
Qed.

(** Two calendar dates with the same day number are the same date. *)
Lemma julianDay_inj (d1 d2 : Date) :
  valid_date d1 = true -> valid_date d2 = true ->
  julianDay d1 = julianDay d2 -> d1 = d2.
Proof.
  intros V1 V2 HJ.
  pose proof (day_of_year_bounds d1 V1) as B1.
  pose proof (day_of_year_bounds d2 V2) as B2.
  apply valid_date_spec in V1, V2.
  destruct d1 as [y1 m1 x1], d2 as [y2 m2 x2].
  unfold julianDay in HJ. cbn [year month day] in *.
  assert (Hy : y1 = y2).
  { destruct (Z.lt_trichotomy y1 y2) as [Hlt|[Heq|Hgt]]; [|exact Heq|].
    - pose proof (days_before_year_mono (y1 + 1) y2 ltac:(lia)) as Hmono.
      rewrite days_before_year_succ in Hmono. lia.
    - pose proof (days_before_year_mono (y2 + 1) y1 ltac:(lia)) as Hmono.
      rewrite days_before_year_succ in Hmono. lia. }
  subst y2.
  assert (Hm : m1 = m2).
  { destruct (Z.lt_trichotomy m1 m2) as [Hlt|[Heq|Hgt]]; [|exact Heq|].
    - pose proof (days_before_month_mono y1 m1 m2 ltac:(lia) Hlt
                    ltac:(lia)). lia.
    - pose proof (days_before_month_mono y1 m2 m1 ltac:(lia) ltac:(lia)
                    ltac:(lia)). lia. }
  subst m2. f_equal. lia.
Qed.

(** ** The fallback for a missing location *)

Example located_profile_not_degraded :
  forall r,
    In r (results (package (rules := sample_rules)
                     (precompute luna_in_austin (mkDate 1992 6 21))
                     (mkDate 2026 3 20))) ->
    locationDegraded r = false /\ recordedTimezone r = "America/Chicago".
Proof.
  intros r Hr. simpl in Hr.
  repeat (destruct Hr as [<-|Hr]; [split; reflexivity|]). destruct Hr.
Qed.



(** ** The calendar *)

Lemma build_reports {rules : Rules} (p : Profile) (b s e : Date) :
  birthDate p = Some b ->
  range_ok s e = true ->
  computeRange p s e =
  inr {| owner := p; first := s; last := e;
         reports := map (package (precompute p b)) (date_range s e) |}.
Proof.
  intros Hb Hr. unfold computeRange, build. rewrite Hb, Hr. reflexivity.
Qed.

Lemma range_ok_ordered (s e : Date) :
  range_ok s e = true -> julianDay s <= julianDay e.
Proof.
  unfold range_ok. intros H. apply andb_true_iff in H.
  destruct H as [H _]. apply Z.leb_le. exact H.
Qed.

Lemma skipn_last_nth {A : Type} (l : list A) (k : nat) (x : A) :
  List.length l = S k -> nth_error l k = Some x -> skipn k l = [x].
Proof.
  revert l. induction k as [|k IH]; intros [|y l] Hlen Hn;
    simpl in *; try discriminate.
  - destruct l; [|discriminate]. injection Hn as ->. reflexivity.
  - apply IH; [lia|exact Hn].
Qed.

Lemma date_range_nth (s e x : Date) :
  valid_date s = true -> valid_date x = true ->
  julianDay s <= julianDay x <= julianDay e ->
  nth_error (date_range s e) (Z.to_nat (julianDay x - julianDay s)) = Some x.
Proof.
  intros Vs Vx [Hlo Hhi].
  set (i := Z.to_nat (julianDay x - julianDay s)).
  destruct (nth_error (date_range s e) i) as [y|] eqn:Hy.
  - destruct (days_from_nth _ _ _ _ Vs Hy) as [Vy Jy].
    f_equal. apply julianDay_inj; try assumption. lia.
  - apply nth_error_None in Hy. unfold date_range in Hy.
    rewrite days_from_length in Hy. lia.
Qed.

(** C3: for every profile (with the birth date a profile must have) and
    every valid inclusive range of calendar dates, [computeRange] returns
    exactly (end - start + 1) DailyReports; the i-th is the report of
    [computeDay] for the calendar date i days after the start, so the
    dates ascend day by day with no gap and no duplicate, the first is
    the start, the last is the end, and every date of the range has its
    report.  The full-year build yields 365 reports for 2026 and 366 for
    the leap year 2024. *)
Theorem computeRange_complete {rules : Rules} (p : Profile) (b : Date) :
  birthDate p = Some b ->
  (forall s e,
     valid_date s = true -> valid_date e = true -> range_ok s e = true ->
     exists cal,
       computeRange p s e = inr cal /\
       Z.of_nat (List.length (reports cal)) =
         julianDay e - julianDay s + 1 /\
       (forall i rep, nth_error (reports cal) i = Some rep ->
          valid_date (date rep) = true /\
          julianDay (date rep) = julianDay s + Z.of_nat i /\
          computeDay p (date rep) = inr rep) /\
       (forall x, valid_date x = true ->
          julianDay s <= julianDay x <= julianDay e ->
          exists rep, In rep (reports cal) /\ date rep = x) /\
       map date (firstn 1 (reports cal)) = [s] /\
       map date (skipn (List.length (reports cal) - 1) (reports cal)) = [e])
  /\
  (exists cal, computeYear p 2026 = inr cal /\
               List.length (reports cal) = 365%nat) /\
  (exists cal, computeYear p 2024 = inr cal /\
               List.length (reports cal) = 366%nat).
Proof.
  intros Hb. split; [|split].
  - intros s e Vs Ve Hr.
    rewrite (build_reports p b s e Hb Hr).
    eexists. split; [reflexivity|]. cbn [reports].
    pose proof (range_ok_ordered s e Hr) as Hse.
    assert (Hnth : forall i rep,
               nth_error (map (package (precompute p b))
                              (date_range s e)) i = Some rep ->
               exists x, nth_error (date_range s e) i = Some x /\
                         rep = package (precompute p b) x).
    { intros i rep H. rewrite nth_error_map in H.
      destruct (nth_error (date_range s e) i) as [x|]; [|discriminate].
      injection H as <-. exists x. split; reflexivity. }
    assert (Hlen : List.length (date_range s e) =
                   Z.to_nat (julianDay e - julianDay s + 1)).
    { unfold date_range. apply days_from_length. }
    split; [|split; [|split; [|split]]].
    + rewrite length_map, Hlen. lia.
    + intros i rep H. destruct (Hnth i rep H) as [x [Hx ->]].
      destruct (days_from_nth _ _ _ _ Vs Hx) as [Vx Jx].
      cbn [date package]. repeat split; try assumption.
      unfold computeDay, assemble. rewrite Hb. reflexivity.
    + intros x Vx Hx.
      exists (package (precompute p b) x). split; [|reflexivity].
      apply in_map. eapply nth_error_In.
      apply (date_range_nth s e x Vs Vx Hx).
    + pose proof (date_range_nth s e s Vs Vs ltac:(lia)) as H0.
      replace (julianDay s - julianDay s) with 0 in H0 by lia.
      destruct (date_range s e) as [|x l]; [discriminate|].
      simpl in H0. injection H0 as ->. reflexivity.
    + rewrite length_map, skipn_map.
      replace (List.length (date_range s e) - 1)%nat
        with (Z.to_nat (julianDay e - julianDay s)) by lia.
      rewrite (skipn_last_nth (date_range s e)
                 (Z.to_nat (julianDay e - julianDay s)) e).
      * reflexivity.
      * lia.
      * apply (date_range_nth s e e Vs Ve). lia.
  - unfold computeYear.
    rewrite (build_reports p b (mkDate 2026 1 1) (mkDate 2026 12 31)
               Hb eq_refl).
    eexists. split; [reflexivity|]. cbn [reports].
    rewrite length_map. unfold date_range. apply days_from_length.
  - unfold computeYear.
    rewrite (build_reports p b (mkDate 2024 1 1) (mkDate 2024 12 31)
               Hb eq_refl).
    eexists. split; [reflexivity|]. cbn [reports].
    rewrite length_map. unfold date_range. apply days_from_length.
Qed.

Lemma computeRange_complete_witness :
  birthDate luna = Some (mkDate 1992 6 21) /\
  exists cal,
    computeYear (rules := sample_rules) luna 2024 = inr cal /\
    List.length (reports cal) = 366%nat.
Proof.
  split; [reflexivity|].
  apply (computeRange_complete (rules := sample_rules) luna
           (mkDate 1992 6 21) eq_refl).
Defined.

End CoreFacts.


(* ===================================================================== *)
(** * Part V.  Further properties of the bridge *)
(* ===================================================================== *)

Section BridgeExtras.

Variable World : Type.
Variable shell : World -> string -> World * SpawnResult.
Variable decode : string -> Buffer -> string.

Implicit Types (st : State World) (r : SpawnResult) (cmd args : string).

Lemma stderr_writes_app (l l' : list Event) :
  stderr_writes (l ++ l') = (stderr_writes l ++ stderr_writes l')%list.
Proof.
  induction l as [|[c|d] l IH]; simpl; rewrite ?IH; reflexivity.
Qed.

Lemma ToString_array_of_strings (xs : list string) :
  ToString (JsArray (map JsString xs)) = String.concat "," xs.
Proof.
  simpl. f_equal. rewrite map_map. apply map_id.
Qed.

Lemma has_nul_concat (xs : list string) :
  forallb (fun x => negb (has_nul x)) xs = true ->
  has_nul (String.concat "," xs) = false.
Proof.
  induction xs as [|x xs IH]; intros H; [reflexivity|].
  cbn [forallb] in H. apply andb_true_iff in H. destruct H as [Hx Hxs].
  apply negb_true_iff in Hx.
  destruct xs as [|y ys]; [exact Hx|].
  change (String.concat "," (x :: y :: ys))
    with (x ++ "," ++ String.concat "," (y :: ys))%string.
  rewrite !has_nul_app, Hx, (IH Hxs). reflexivity.
Qed.

(** X1: called with an array of strings, none with a null character,
    [run] does not pass the elements as separate words: the one command
    it spawns is "skskyforge " followed by the elements joined by commas.
    Called with [undefined] (or with no argument), it spawns
    "skskyforge undefined". *)
Theorem run_value_array_joined_by_commas (xs : list string) st :
  forallb (fun x => negb (has_nul x)) xs = true ->
  commands
    (log (fst (run_value shell decode (JsArray (map JsString xs)) st)))
    = (commands (log st)
       ++ [("skskyforge " ++ String.concat "," xs)%string])%list
  /\
  commands (log (fst (run_value shell decode JsUndefined st)))
    = (commands (log st) ++ ["skskyforge undefined"])%list.
Proof.
  intros H. unfold run_value. rewrite ToString_array_of_strings.
  unfold run, run_command. split.
  - apply (execSync_state World shell decode
             ("skskyforge " ++ String.concat "," xs)).
    apply (has_nul_concat xs H).
  - apply (execSync_state World shell decode "skskyforge undefined").
    reflexivity.
Qed.

(** X2: [run], which passes an encoding and no [stdio], writes the
    child's stderr, decoded as UTF-8, to the process's own stderr
    whenever that text is not empty, whether the command succeeded or
    not; when [args] is refused for a null character it writes nothing.
    [checkInstalled], which passes [stdio: "pipe"], never writes to
    stderr, whatever the interpreters printed. *)
Theorem run_forwards_stderr_checkInstalled_silent args st :
  let r := snd (shell (world st) ("skskyforge " ++ args)) in
  (has_nul args = false ->
   stderr_writes (log (fst (run shell decode args st))) =
     (stderr_writes (log st) ++
      (if (decode "utf-8" (stderr r) =? EmptyString)%string then []
       else [OutString (decode "utf-8" (stderr r))]))%list) /\
  (has_nul args = true ->
   stderr_writes (log (fst (run shell decode args st))) =
     stderr_writes (log st)) /\
  stderr_writes (log (fst (checkInstalled shell decode st))) =
    stderr_writes (log st).
Proof.
  intros r. split; [|split].
  - intros Hn. unfold run, run_command, execSync.
    change (has_nul ("skskyforge " ++ args)) with (has_nul args).
    rewrite Hn. subst r.
    destruct (shell (world st) ("skskyforge " ++ args)) as [w' r].
    cbn [snd stdio encoding returned ret_stderr captured encoding_name
         truthy andb].
    destruct (checkExecSyncError decode _ _); cbn [fst log];
      rewrite stderr_writes_app;
      destruct (decode "utf-8" (stderr r) =? EmptyString)%string;
      reflexivity.
  - intros Hn. unfold run, run_command.
    rewrite (execSync_nul World shell decode ("skskyforge " ++ args) _ st Hn).
    reflexivity.
  - unfold checkInstalled. simpl. unfold Eff.bind.
    rewrite (checkInstalled_body_spec World shell decode "python3" st
               eq_refl).
    destruct (succeeded _); simpl.
    + rewrite stderr_writes_app. simpl. apply app_nil_r.
    + rewrite (checkInstalled_body_spec World shell decode "python" _
                 eq_refl).
      destruct (succeeded _); simpl;
        rewrite !stderr_writes_app; simpl; rewrite !app_nil_r; reflexivity.
Qed.

(** X4: for [args] without a null character, the error a failing [run]
    throws names the whole command line: when the shell ran the command
    and it ended with a status other than 0 (or by a signal), the message
    starts with "Command failed: " followed by "skskyforge " and [args]
    as given; when the child could not be run at all, the message is that
    of the spawn error. *)
Theorem run_error_message args st :
  has_nul args = false ->
  let r := snd (shell (world st) ("skskyforge " ++ args)) in
  (error r = None -> status r <> Some 0 ->
   exists rest ret,
     snd (run shell decode args st) =
       Throw (ExecFailed
                ("Command failed: skskyforge " ++ args ++ rest)%string ret))
  /\
  (forall msg, error r = Some msg ->
   exists ret, snd (run shell decode args st) = Throw (ExecFailed msg ret)).
Proof.
  intros Hn r. unfold run, run_command.
  rewrite (execSync_completion World shell decode
             ("skskyforge " ++ args) _ st Hn).
  fold r. unfold checkExecSyncError. cbn [ret_error ret_status returned].
  split.
  - intros He Hs. rewrite He.
    assert (Happ : forall a b c : string,
               ((a ++ b) ++ c = a ++ b ++ c)%string).
    { induction a as [|x a IH]; intros b c; simpl; [|rewrite IH];
        reflexivity. }
    assert (Hnil : forall a : string, (a ++ EmptyString = a)%string).
    { induction a as [|x a IH]; simpl; [|rewrite IH]; reflexivity. }
    destruct (status r) as [[|c|c]|]; try congruence;
      destruct (nonempty _); eexists; eexists;
        first [ rewrite (Happ "Command failed: " ("skskyforge " ++ args));
                rewrite (Happ "skskyforge " args); reflexivity
              | rewrite <- (Hnil ("Command failed: " ++ "skskyforge " ++ args))
                  at 1;
                rewrite (Happ "Command failed: " ("skskyforge " ++ args));
                rewrite (Happ "skskyforge " args); reflexivity ].
  - intros msg He. rewrite He. eexists. reflexivity.
Qed.

(** X5: [checkInstalled] sees of each attempt only whether it succeeded.
    Two machines that agree, on the two import commands, about success
    and about the world left behind give the same answer and the same
    final state, whatever the interpreters printed, whatever their exit
    codes, and whatever either machine does with any other command. *)
Theorem checkInstalled_observes_success_only
        (shell' : World -> string -> World * SpawnResult)
        (decode' : string -> Buffer -> string) st :
  (forall w py, In py ["python3"; "python"] ->
     fst (shell w (import_command py)) = fst (shell' w (import_command py)) /\
     succeeded (snd (shell w (import_command py))) =
       succeeded (snd (shell' w (import_command py)))) ->
  checkInstalled shell decode st = checkInstalled shell' decode' st.
Proof.
  intros H. unfold checkInstalled. simpl. unfold Eff.bind.
  rewrite !(checkInstalled_body_spec World _ _ "python3" st eq_refl).
  destruct (H (world st) "python3" ltac:(simpl; tauto)) as [Hw Hs].
  rewrite Hw, Hs.
  destruct (succeeded (snd (shell' (world st) (import_command "python3"))));
    [reflexivity|].
  rewrite !(checkInstalled_body_spec World _ _ "python" _ eq_refl).
  cbn [world log].
  destruct (H (fst (shell' (world st) (import_command "python3"))) "python"
              ltac:(simpl; tauto)) as [Hw' Hs'].
  rewrite Hw', Hs'. reflexivity.
Qed.

End BridgeExtras.

Lemma run_value_array_joined_by_commas_witness :
  commands
    (log (fst (run_value demo_shell demo_decode
                 (JsArray (map JsString ["daily"; "--format"; "json"]))
                 demo_start)))
  = ["skskyforge daily,--format,json"].
Proof.
  apply (proj1 (run_value_array_joined_by_commas nat demo_shell demo_decode
                  ["daily"; "--format"; "json"] demo_start eq_refl)).
Defined.

Lemma run_forwards_stderr_checkInstalled_silent_witness :
  stderr_writes
    (log (fst (run demo_shell demo_decode "daily --bogus" demo_start))) =
  [OutString "Usage: skskyforge [OPTIONS] COMMAND [ARGS]..."].
Proof.
  apply (proj1 (run_forwards_stderr_checkInstalled_silent
                  nat demo_shell demo_decode "daily --bogus" demo_start)).
  reflexivity.
Defined.

Lemma run_error_message_witness :
  exists rest ret,
    snd (run demo_shell demo_decode "daily --bogus" demo_start) =
      Throw (ExecFailed
               ("Command failed: skskyforge daily --bogus" ++ rest)%string
               ret).
Proof.
  apply (proj1 (run_error_message nat demo_shell demo_decode
                  "daily --bogus" demo_start eq_refl)).
  - reflexivity.
  - discriminate.
Defined.

Lemma checkInstalled_observes_success_only_witness :
  checkInstalled demo_shell demo_decode demo_start =
  checkInstalled demo_shell_no_package (fun _ _ => EmptyString) demo_start.
Proof.
  apply (checkInstalled_observes_success_only nat demo_shell demo_decode
           demo_shell_no_package (fun _ _ => EmptyString) demo_start).
  intros w py [<-|[<-|[]]]; split; reflexivity.
Defined.
